(** * AP_Baro: the barometer frontend of ArduSub

    A shallow embedding of [libraries/AP_Baro/AP_Baro.h] and the properties
    of its accessors, registration, injection and calibration.

    - C [float] is IEEE-754 binary32, modelled by [spec_float] with the
      binary32 precision and exponent range.
    - [uint8_t] and [uint32_t] are integers in [Z]; where the source
      narrows a value the wrap-around is written out.
    - [sensors[BARO_MAX_INSTANCES]] is a list read and written by index.
      The source indexes it without any check, so an access outside the
      array has no defined result: the embedding returns [None] there. *)

From Stdlib Require Import ZArith Bool Lia.
From Stdlib Require Import Floats.SpecFloat.
From stdpp Require Import base option list.

Local Open Scope Z_scope.

(** ** Machine numbers *)

Definition uint8_t (z : Z) : Z := z mod 256.
Definition int8_t (z : Z) : Z := (z + 128) mod 256 - 128.
Definition uint32_t (z : Z) : Z := z mod 4294967296.

Module F32.
Definition prec : Z := 24.
Definition emax : Z := 128.

Definition float : Type := spec_float.

Definition zero : float := S754_zero false.
Definition add (x y : float) : float := SFadd prec emax x y.
Definition div (x y : float) : float := SFdiv prec emax x y.
Definition of_Z (z : Z) : float := binary_normalize prec emax z 0 false.
Definition of_nat (n : nat) : float := of_Z (Z.of_nat n).
End F32.

Abbreviation float := F32.float.

(** ** Constants of the header *)

Definition BARO_MAX_INSTANCES : Z := 3.
Definition BARO_MAX_DRIVERS : Z := 3.
Definition BARO_TYPE_AIR : Z := 0.
Definition BARO_TYPE_WATER : Z := 1.

(** ** [struct sensor] *)

Module Sensor.
Record t : Type := mk {
    type : Z;
    precision_multiplier : Z;
    last_update_ms : Z;
    healthy : bool;
    alt_ok : bool;
    calibrated : bool;
    pressure : float;
    temperature : float;
    altitude : float;
    ground_temperature : float;
    ground_pressure : float
  }.

Definition set_type (v : Z) (s : t) : t :=
    mk v (precision_multiplier s) (last_update_ms s) (healthy s) (alt_ok s)
       (calibrated s) (pressure s) (temperature s) (altitude s)
       (ground_temperature s) (ground_pressure s).

Definition set_precision_multiplier (v : Z) (s : t) : t :=
    mk (type s) v (last_update_ms s) (healthy s) (alt_ok s)
       (calibrated s) (pressure s) (temperature s) (altitude s)
       (ground_temperature s) (ground_pressure s).

Definition set_calibrated (v : bool) (s : t) : t :=
    mk (type s) (precision_multiplier s) (last_update_ms s) (healthy s)
       (alt_ok s) v (pressure s) (temperature s) (altitude s)
       (ground_temperature s) (ground_pressure s).

Definition set_ground (gt gp : float) (s : t) : t :=
    mk (type s) (precision_multiplier s) (last_update_ms s) (healthy s)
       (alt_ok s) (calibrated s) (pressure s) (temperature s) (altitude s)
       gt gp.

Definition set_sample (p tmp alt : float) (ms : Z) (s : t) : t :=
    mk (type s) (precision_multiplier s) ms (healthy s) (alt_ok s)
       (calibrated s) p tmp alt (ground_temperature s) (ground_pressure s).

(** Overwrites the three health bits and the time stamp, nothing else. *)
Definition set_status (h a c : bool) (ms : Z) (s : t) : t :=
    mk (type s) (precision_multiplier s) ms h a c (pressure s)
       (temperature s) (altitude s) (ground_temperature s) (ground_pressure s).
End Sensor.

(** ** The anonymous [_hil] struct *)

Module Hil.
Record t : Type := mk {
    pressure : float;
    temperature : float;
    altitude : float;
    climb_rate : float;
    last_update_ms : Z;
    updated : bool;
    have_alt : bool;
    have_last_update : bool
  }.
End Hil.

(** ** [class AP_Baro]

    [drivers] holds pointers to backends, which are outside this header;
    only their count [_num_drivers] is kept. *)

(** Modelled from the spec: [DerivativeFilterFloat_Size7] is declared in
    [Filter/DerivativeFilter.h], which is not among the sources. Spec 4.5
    describes it as a fixed-order filter over the last seven altitude
    samples; its state is the history of samples it holds. *)
Definition DerivativeFilterFloat_Size7 : Type := list float.

Record AP_Baro : Type := mkBaro {
  _hil : Hil.t;
  _num_drivers : Z;
  _num_sensors : Z;
  _primary : Z;
  sensors : list Sensor.t;
  _alt_offset : float;
  _alt_offset_active : float;
  _primary_baro : Z;
  _last_altitude_EAS2TAS : float;
  _EAS2TAS : float;
  _external_temperature : float;
  _last_external_temperature_ms : Z;
  _climb_rate_filter : DerivativeFilterFloat_Size7;
  _specific_gravity : float;
  _base_pressure : float;
  _reset_base_pressure : Z;
  _hil_mode : bool;
  _last_notify_ms : Z
}.

Definition with_hil (v : Hil.t) (b : AP_Baro) : AP_Baro :=
  mkBaro v (_num_drivers b) (_num_sensors b) (_primary b) (sensors b)
    (_alt_offset b) (_alt_offset_active b) (_primary_baro b)
    (_last_altitude_EAS2TAS b) (_EAS2TAS b) (_external_temperature b)
    (_last_external_temperature_ms b) (_climb_rate_filter b)
    (_specific_gravity b) (_base_pressure b) (_reset_base_pressure b)
    (_hil_mode b) (_last_notify_ms b).

Definition with_num_sensors (v : Z) (b : AP_Baro) : AP_Baro :=
  mkBaro (_hil b) (_num_drivers b) v (_primary b) (sensors b)
    (_alt_offset b) (_alt_offset_active b) (_primary_baro b)
    (_last_altitude_EAS2TAS b) (_EAS2TAS b) (_external_temperature b)
    (_last_external_temperature_ms b) (_climb_rate_filter b)
    (_specific_gravity b) (_base_pressure b) (_reset_base_pressure b)
    (_hil_mode b) (_last_notify_ms b).

Definition with_sensors (v : list Sensor.t) (b : AP_Baro) : AP_Baro :=
  mkBaro (_hil b) (_num_drivers b) (_num_sensors b) (_primary b) v
    (_alt_offset b) (_alt_offset_active b) (_primary_baro b)
    (_last_altitude_EAS2TAS b) (_EAS2TAS b) (_external_temperature b)
    (_last_external_temperature_ms b) (_climb_rate_filter b)
    (_specific_gravity b) (_base_pressure b) (_reset_base_pressure b)
    (_hil_mode b) (_last_notify_ms b).

Definition with_alt_offset (v : float) (b : AP_Baro) : AP_Baro :=
  mkBaro (_hil b) (_num_drivers b) (_num_sensors b) (_primary b) (sensors b)
    v (_alt_offset_active b) (_primary_baro b)
    (_last_altitude_EAS2TAS b) (_EAS2TAS b) (_external_temperature b)
    (_last_external_temperature_ms b) (_climb_rate_filter b)
    (_specific_gravity b) (_base_pressure b) (_reset_base_pressure b)
    (_hil_mode b) (_last_notify_ms b).

Definition with_primary_baro (v : Z) (b : AP_Baro) : AP_Baro :=
  mkBaro (_hil b) (_num_drivers b) (_num_sensors b) (_primary b) (sensors b)
    (_alt_offset b) (_alt_offset_active b) v
    (_last_altitude_EAS2TAS b) (_EAS2TAS b) (_external_temperature b)
    (_last_external_temperature_ms b) (_climb_rate_filter b)
    (_specific_gravity b) (_base_pressure b) (_reset_base_pressure b)
    (_hil_mode b) (_last_notify_ms b).

Definition with_climb_rate_filter (v : DerivativeFilterFloat_Size7)
    (b : AP_Baro) : AP_Baro :=
  mkBaro (_hil b) (_num_drivers b) (_num_sensors b) (_primary b) (sensors b)
    (_alt_offset b) (_alt_offset_active b) (_primary_baro b)
    (_last_altitude_EAS2TAS b) (_EAS2TAS b) (_external_temperature b)
    (_last_external_temperature_ms b) v
    (_specific_gravity b) (_base_pressure b) (_reset_base_pressure b)
    (_hil_mode b) (_last_notify_ms b).

Definition with_hil_mode (v : bool) (b : AP_Baro) : AP_Baro :=
  mkBaro (_hil b) (_num_drivers b) (_num_sensors b) (_primary b) (sensors b)
    (_alt_offset b) (_alt_offset_active b) (_primary_baro b)
    (_last_altitude_EAS2TAS b) (_EAS2TAS b) (_external_temperature b)
    (_last_external_temperature_ms b) (_climb_rate_filter b)
    (_specific_gravity b) (_base_pressure b) (_reset_base_pressure b)
    v (_last_notify_ms b).

(** ** Array access

    [sensors[instance]] with a [uint8_t] index.  Inside the array the
    element is returned; outside there is no defined result. *)

Definition sensor_at (b : AP_Baro) (instance : Z) : option Sensor.t :=
  if 0 <=? instance then sensors b !! Z.to_nat instance else None.

(** [sensors[instance] = s], defined only inside the array. *)
Definition sensor_store (instance : Z) (s : Sensor.t) (b : AP_Baro)
    : option AP_Baro :=
  match sensor_at b instance with
  | Some _ => Some (with_sensors (<[Z.to_nat instance := s]> (sensors b)) b)
  | None => None
  end.

(** The array has its declared size. *)
Definition wf (b : AP_Baro) : Prop :=
  length (sensors b) = Z.to_nat BARO_MAX_INSTANCES.

(** ** Accessors with an instance argument

    Each overload taking [uint8_t instance] keeps the source's name; the
    overload taking no argument carries the suffix [_void]. *)

Definition healthy (b : AP_Baro) (instance : Z) : option bool :=
  s ← sensor_at b instance;
  Some (Sensor.healthy s && Sensor.alt_ok s && Sensor.calibrated s).

Definition get_pressure (b : AP_Baro) (instance : Z) : option float :=
  s ← sensor_at b instance; Some (Sensor.pressure s).

Definition get_temperature (b : AP_Baro) (instance : Z) : option float :=
  s ← sensor_at b instance; Some (Sensor.temperature s).

Definition get_altitude (b : AP_Baro) (instance : Z) : option float :=
  s ← sensor_at b instance; Some (Sensor.altitude s).

Definition get_ground_temperature (b : AP_Baro) (i : Z) : option float :=
  s ← sensor_at b i; Some (Sensor.ground_temperature s).

Definition get_ground_pressure (b : AP_Baro) (i : Z) : option float :=
  s ← sensor_at b i; Some (Sensor.ground_pressure s).

(** The source reads [sensors[_primary]] here and does not use its
    argument. *)
Definition get_last_update (b : AP_Baro) (instance : Z) : option Z :=
  s ← sensor_at b (_primary b); Some (Sensor.last_update_ms s).

(** ** Accessors of the primary instance *)

Definition healthy_void (b : AP_Baro) : option bool :=
  healthy b (_primary b).
Definition get_pressure_void (b : AP_Baro) : option float :=
  get_pressure b (_primary b).
Definition get_temperature_void (b : AP_Baro) : option float :=
  get_temperature b (_primary b).
Definition get_altitude_void (b : AP_Baro) : option float :=
  get_altitude b (_primary b).
Definition get_ground_temperature_void (b : AP_Baro) : option float :=
  get_ground_temperature b (_primary b).
Definition get_ground_pressure_void (b : AP_Baro) : option float :=
  get_ground_pressure b (_primary b).
Definition get_last_update_void (b : AP_Baro) : option Z :=
  get_last_update b (_primary b).

(** ** Inline mutators of the header *)

(** [_primary_baro] is an [AP_Int8]; storing a [uint8_t] narrows it. *)
Definition set_primary_baro (primary : Z) (b : AP_Baro) : AP_Baro :=
  with_primary_baro (int8_t primary) b.

Definition set_type (instance type : Z) (b : AP_Baro) : option AP_Baro :=
  s ← sensor_at b instance;
  sensor_store instance (Sensor.set_type type s) b.

Definition set_precision_multiplier (instance multiplier : Z) (b : AP_Baro)
    : option AP_Baro :=
  s ← sensor_at b instance;
  sensor_store instance (Sensor.set_precision_multiplier multiplier s) b.

Definition num_instances (b : AP_Baro) : Z := _num_sensors b.

Definition set_hil_mode (b : AP_Baro) : AP_Baro := with_hil_mode true b.

Definition set_baro_drift_altitude (alt : float) (b : AP_Baro) : AP_Baro :=
  with_alt_offset alt b.

Definition get_baro_drift_offset (b : AP_Baro) : float :=
  _alt_offset_active b.

(** ** Registration *)

(** What a call that may panic ends with. *)
Inductive outcome (A : Type) : Type :=
| Returns (a : A)
| Panics.
Arguments Returns {A} a.
Arguments Panics {A}.

(** Modelled from the spec: the body of [register_sensor] is in
    [AP_Baro.cpp], which is not among the sources.  The header declares it
    as registering a new sensor and claiming a sensor slot, with a panic
    when no slot is left, and spec 4.1 says that it allocates the next
    free instance slot and returns its index, and fails fatally if the
    instance capacity is exhausted.  [_num_sensors] counts the slots
    claimed so far, as [num_instances] reads it. *)
Definition register_sensor (b : AP_Baro) : AP_Baro * outcome Z :=
  if BARO_MAX_INSTANCES <=? _num_sensors b then (b, Panics)
  else (with_num_sensors (uint8_t (_num_sensors b + 1)) b,
        Returns (_num_sensors b)).

(** ** Injection *)

(** Modelled from the spec: the body of the six-argument [setHIL] is in
    [AP_Baro.cpp], which is not among the sources.  Spec 4.7 says that the
    injector directly sets one instance's pressure, temperature, altitude,
    climb rate and timestamp, bypassing the update pipeline.  The record of
    an instance has no climb rate; the header's [_hil] record holds the
    injected sample, climb rate included, with its flags. *)
Definition setHIL (instance : Z) (pressure temperature altitude
    climb_rate : float) (last_update_ms : Z) (b : AP_Baro)
    : option AP_Baro :=
  s ← sensor_at b instance;
  sensor_store instance
    (Sensor.set_sample pressure temperature altitude last_update_ms s)
    (with_hil
       (Hil.mk pressure temperature altitude climb_rate last_update_ms
          true true true) b).

(** ** Climb rate *)

Section ClimbRate.

(** The current output of the derivative filter.  The filter and its
    output are defined in [Filter/DerivativeFilter.h], which is not among
    the sources. *)
Variable slope : DerivativeFilterFloat_Size7 → float.


End ClimbRate.

(** ** Calibration

    The bodies of [calibrate] and [update] are in [AP_Baro.cpp], which is
    not among the sources; the definitions of this part follow spec 4.3.
    What one round of [update] delivers for an instance is a [reading]; the
    rounds that fit before the deadline are the list [rounds], one list of
    readings (indexed by instance) per round.  What [update] does to the
    other fields of a record during the rounds is not part of the model.
    The required number of samples and the range test are not fixed by the
    spec and are parameters. *)

Record reading : Type := mkReading {
  r_pressure : float;
  r_temperature : float
}.

Record accum : Type := mkAccum {
  acc_count : nat;
  acc_pressure : float;
  acc_temperature : float
}.

Definition accum0 : accum := mkAccum 0 F32.zero F32.zero.

Definition sum_f32 (xs : list float) : float := fold_left F32.add xs F32.zero.

Definition mean_f32 (xs : list float) : float :=
  F32.div (sum_f32 xs) (F32.of_nat (length xs)).

Definition accum_mean_pressure (a : accum) : float :=
  F32.div (acc_pressure a) (F32.of_nat (acc_count a)).

Definition accum_mean_temperature (a : accum) : float :=
  F32.div (acc_temperature a) (F32.of_nat (acc_count a)).

(** The readings of one instance over the rounds. *)
Definition readings_of (instance : nat) (rounds : list (list reading))
    : list reading :=
  omap (λ round : list reading, round !! instance) rounds.

Section Calibration.
Variable required_samples : nat.
Variable in_range : reading → bool.

(** Modelled from the spec: the accumulation step of [calibrate], whose
    body is not among the sources.  Spec 4.3 asks for consecutive in-range
    samples: an in-range reading extends the run, any other reading
    restarts it. *)
Definition accumulate_reading (a : accum) (r : reading) : accum :=
  if in_range r
  then mkAccum (S (acc_count a))
         (F32.add (acc_pressure a) (r_pressure r))
         (F32.add (acc_temperature a) (r_temperature r))
  else accum0.

(** Modelled from the spec: the sampling loop of [calibrate] for one
    instance, whose body is not among the sources.  Spec 4.3: sampling
    goes on until the required number of consecutive in-range samples is
    collected ([Some] sums) or the timeout elapses ([None], the rounds are
    used up). *)
Fixpoint sample_instance (a : accum) (rs : list reading) : option accum :=
  match rs with
  | [] => None
  | r :: rs' =>
      let a' := accumulate_reading a r in
      if (required_samples <=? acc_count a')%nat then Some a'
      else sample_instance a' rs'
  end.

(** Modelled from the spec: the ground pressure that a successful
    calibration gives an instance; the body of [calibrate] is not among
    the sources.  Spec 4.3: the ground pressure is the average, except
    that a liquid-type instance instead uses the persisted base pressure
    as its reference, which a configuration flag resets to the current
    pressure at boot.  [current] is the pressure that the call has just
    measured, the average.  Writing the reset value back to the persisted
    parameter and clearing the flag are the work of the parameter storage,
    which the spec keeps outside this component. *)
Definition ground_reference (base_pressure : float)
    (reset_base_pressure : Z) (s : Sensor.t) (current : float) : float :=
  if (Sensor.type s =? BARO_TYPE_WATER) && (reset_base_pressure =? 0)
  then base_pressure
  else current.

(** Modelled from the spec: what [calibrate] does to one instance; its
    body is not among the sources.  Spec 4.3: the instance moves to
    sampling; an instance that is unhealthy at the start is skipped and
    stays uncalibrated; on success the instance is calibrated, its ground
    temperature is set to the average and its ground pressure to the
    average or, for a liquid-type instance, to the persisted base
    pressure; on timeout the [calibrated] flag remains false. *)
Definition calibrate_instance (base_pressure : float)
    (reset_base_pressure : Z) (s : Sensor.t) (rs : list reading)
    : Sensor.t :=
  let sampling := Sensor.set_calibrated false s in
  if Sensor.healthy s then
    match sample_instance accum0 rs with
    | Some a =>
        Sensor.set_ground (accum_mean_temperature a)
          (ground_reference base_pressure reset_base_pressure s
             (accum_mean_pressure a))
          (Sensor.set_calibrated true sampling)
    | None => sampling
    end
  else sampling.

(** Modelled from the spec: [calibrate], whose body is in [AP_Baro.cpp],
    not among the sources.  Spec 4.3: every registered instance goes
    through calibration in the same call; spec 4.5: the history of the
    climb-rate filter is reset when calibration completes. *)
Definition calibrate (rounds : list (list reading)) (b : AP_Baro)
    : AP_Baro :=
  with_climb_rate_filter []
    (with_sensors
       (imap (λ (i : nat) (s : Sensor.t),
                if Z.of_nat i <? _num_sensors b
                then calibrate_instance (_base_pressure b)
                       (_reset_base_pressure b) s (readings_of i rounds)
                else s)
             (sensors b))
       b).

End Calibration.

(** ** The operations as a transition system

    One constructor per mutating operation above.  An operation that
    panics or has no defined result ends the run. *)

Inductive op : Type :=
| OpSetPrimaryBaro (primary : Z)
| OpSetType (instance type : Z)
| OpSetPrecisionMultiplier (instance multiplier : Z)
| OpSetHilMode
| OpSetBaroDriftAltitude (alt : float)
| OpRegisterSensor
| OpSetHIL (instance : Z) (pressure temperature altitude climb_rate : float)
    (last_update_ms : Z)
| OpCalibrate (rounds : list (list reading)).

Section Operations.
Variable required_samples : nat.
Variable in_range : reading → bool.

Definition exec_op (o : op) (b : AP_Baro) : option AP_Baro :=
  match o with
  | OpSetPrimaryBaro primary => Some (set_primary_baro primary b)
  | OpSetType instance type => set_type instance type b
  | OpSetPrecisionMultiplier instance multiplier =>
      set_precision_multiplier instance multiplier b
  | OpSetHilMode => Some (set_hil_mode b)
  | OpSetBaroDriftAltitude alt => Some (set_baro_drift_altitude alt b)
  | OpRegisterSensor =>
      match register_sensor b with
      | (b', Returns _) => Some b'
      | (_, Panics) => None
      end
  | OpSetHIL instance p t a c ms => setHIL instance p t a c ms b
  | OpCalibrate rounds =>
      Some (calibrate required_samples in_range rounds b)
  end.

Fixpoint exec (os : list op) (b : AP_Baro) : option AP_Baro :=
  match os with
  | [] => Some b
  | o :: os' => b' ← exec_op o b; exec os' b'
  end.

End Operations.

(** The sums that sampling holds after a run of in-range readings. *)
Definition accum_of (run : list reading) : accum :=
  mkAccum (length run) (sum_f32 (map r_pressure run))
    (sum_f32 (map r_temperature run)).

(** [run] is a block of [k] consecutive in-range readings within [rs]. *)
Definition consecutive_in_range (k : nat) (in_range : reading → bool)
    (run rs : list reading) : Prop :=
  length run = k
  ∧ Forall (λ r, in_range r = true) run
  ∧ ∃ pre post, rs = pre ++ run ++ post.

(** The first block of [k] consecutive in-range readings of [rs]: the
    readings are scanned from the left for a window of [k] readings that
    are all in range. *)
Fixpoint first_block (k : nat) (in_range : reading → bool)
    (rs : list reading) : option (list reading) :=
  match rs with
  | [] => None
  | _ :: rs' =>
      if (length (take k rs) =? k)%nat && forallb in_range (take k rs)
      then Some (take k rs)
      else first_block k in_range rs'
  end.

(** ** A bench state

    Three instances with distinct readings and both ground references at
    zero, two of them registered; used to run the definitions on concrete
    values. *)

Definition bench_sensor (ms : Z) (h a c : bool) (p tmp alt : Z)
    : Sensor.t :=
  Sensor.mk BARO_TYPE_AIR 1 ms h a c (F32.of_Z p) (F32.of_Z tmp)
    (F32.of_Z alt) F32.zero F32.zero.

Definition bench_hil : Hil.t :=
  Hil.mk F32.zero F32.zero F32.zero F32.zero 0 false false false.

Definition bench : AP_Baro :=
  mkBaro bench_hil 1 2 0
    [ bench_sensor 100 true true true 101325 15 0;
      bench_sensor 200 false false false 99000 20 12;
      bench_sensor 300 true false true 50000 4 7 ]
    F32.zero F32.zero 0 F32.zero F32.zero F32.zero 0 [] (F32.of_Z 1)
    F32.zero 0 false 0.

(** A state in which no slot has been claimed yet. *)
Definition bench_fresh : AP_Baro := with_num_sensors 0 bench.

(** The bench with instance 0 a water sensor and a persisted base
    pressure of 98000 Pa; the reset flag is clear. *)
Definition bench_water : AP_Baro :=
  mkBaro bench_hil 1 2 0
    [ Sensor.set_type BARO_TYPE_WATER
        (bench_sensor 100 true true true 101325 15 0);
      bench_sensor 200 false false false 99000 20 12;
      bench_sensor 300 true false true 50000 4 7 ]
    F32.zero F32.zero 0 F32.zero F32.zero F32.zero 0 [] (F32.of_Z 1)
    (F32.of_Z 98000) 0 false 0.


(** Pressures between 50000 Pa and 110000 Pa count as in range. *)
Definition bench_in_range (r : reading) : bool :=
  SFleb (F32.of_Z 50000) (r_pressure r)
  && SFleb (r_pressure r) (F32.of_Z 110000).

Definition bench_reading (p tmp : Z) : reading :=
  mkReading (F32.of_Z p) (F32.of_Z tmp).

(** Four rounds of [update]; the second one delivers an out-of-range
    pressure for instance 0. *)
Definition bench_rounds : list (list reading) :=
  [ [ bench_reading 101000 15; bench_reading 99000 20 ];
    [ bench_reading 20 15; bench_reading 99010 20 ];
    [ bench_reading 101320 16; bench_reading 99020 20 ];
    [ bench_reading 101330 14; bench_reading 99030 20 ] ].

(** ** Observations and classes of operations *)

(** What the accessors with an instance argument report for one index. *)
Definition readings (b : AP_Baro) (j : Z) :=
  (healthy b j, get_pressure b j, get_temperature b j, get_altitude b j,
   get_ground_temperature b j, get_ground_pressure b j, get_last_update b j).

(** What the accessors without an instance argument report. *)
Definition primary_readings (b : AP_Baro) :=
  (healthy_void b, get_pressure_void b, get_temperature_void b,
   get_altitude_void b, get_ground_temperature_void b,
   get_ground_pressure_void b, get_last_update_void b, num_instances b,
   get_baro_drift_offset b).

(** Two records that differ at most in [type] and
    [precision_multiplier]. *)
Definition same_readings (s s' : Sensor.t) : Prop :=
  Sensor.last_update_ms s' = Sensor.last_update_ms s
  ∧ Sensor.healthy s' = Sensor.healthy s
  ∧ Sensor.alt_ok s' = Sensor.alt_ok s
  ∧ Sensor.calibrated s' = Sensor.calibrated s
  ∧ Sensor.pressure s' = Sensor.pressure s
  ∧ Sensor.temperature s' = Sensor.temperature s
  ∧ Sensor.altitude s' = Sensor.altitude s
  ∧ Sensor.ground_temperature s' = Sensor.ground_temperature s
  ∧ Sensor.ground_pressure s' = Sensor.ground_pressure s.

(** The operations whose body is in the header. *)
Definition inline_op (o : op) : bool :=
  match o with
  | OpSetPrimaryBaro _ | OpSetType _ _ | OpSetPrecisionMultiplier _ _
  | OpSetHilMode | OpSetBaroDriftAltitude _ => true
  | OpRegisterSensor | OpSetHIL _ _ _ _ _ _ | OpCalibrate _ => false
  end.

(** The index with which an operation of the header accesses the array
    lies inside it; operations that do not index the array pass. *)
Definition op_in_range (o : op) : bool :=
  match o with
  | OpSetType instance _ | OpSetPrecisionMultiplier instance _ =>
      (0 <=? instance) && (instance <? BARO_MAX_INSTANCES)
  | _ => true
  end.

(** A run of header operations on the bench: instance 1 becomes a water
    sensor with multiplier 10, HIL mode is entered, the user picks
    instance 1 as primary and sets a drift of 5 m. *)
Definition bench_ops : list op :=
  [ OpSetType 1 BARO_TYPE_WATER; OpSetPrecisionMultiplier 1 10;
    OpSetHilMode; OpSetPrimaryBaro 1;
    OpSetBaroDriftAltitude (F32.of_Z 5) ].

(** * Properties *)

(** Unfolds the accessors down to the array access. *)
Ltac unfold_accessors :=
  unfold healthy_void, get_pressure_void, get_temperature_void,
    get_altitude_void, get_ground_temperature_void, get_ground_pressure_void,
    healthy, get_pressure, get_temperature, get_altitude,
    get_ground_temperature, get_ground_pressure in *.

(** ** Array access *)

Lemma sensor_at_Some (b : AP_Baro) (i : Z) :
  wf b → 0 ≤ i < BARO_MAX_INSTANCES → is_Some (sensor_at b i).
Proof.
  unfold wf, sensor_at, BARO_MAX_INSTANCES. intros Hlen [Hlo Hhi].
  destruct (Z.leb_spec 0 i) as [_|]; [|lia].
  apply lookup_lt_is_Some. lia.
Qed.

Lemma sensor_at_None (b : AP_Baro) (i : Z) :
  wf b → BARO_MAX_INSTANCES ≤ i → sensor_at b i = None.
Proof.
  unfold wf, sensor_at, BARO_MAX_INSTANCES. intros Hlen Hhi.
  destruct (Z.leb_spec 0 i) as [_|]; [|done].
  apply lookup_ge_None. lia.
Qed.

Lemma sensor_at_store_eq (b b' : AP_Baro) (i : Z) (s : Sensor.t) :
  sensor_store i s b = Some b' → sensor_at b' i = Some s.
Proof.
  unfold sensor_store. destruct (sensor_at b i) as [s0|] eqn:Hat; [|done].
  intros [= <-]. unfold sensor_at in *. simpl.
  destruct (0 <=? i); [|done].
  apply list_lookup_insert_eq. by apply lookup_lt_is_Some.
Qed.


Lemma sensor_store_is_Some (b : AP_Baro) (i : Z) (s : Sensor.t) :
  is_Some (sensor_at b i) → is_Some (sensor_store i s b).
Proof. unfold sensor_store. intros [s0 ->]. by eexists. Qed.

Lemma wf_bench : wf bench.
Proof. reflexivity. Qed.

(** ** C1 *)

Lemma get_last_update_any_instance (b : AP_Baro) (i j : Z) :
  get_last_update b i = get_last_update b j.
Proof. reflexivity. Qed.

(** C1: on the bench state, whose primary is instance 0, the time stamp
    stored for instance 1 is 200, yet [get_last_update] called for
    instance 1 returns 100, the time stamp of the primary. *)
Lemma get_last_update_reads_primary :
  Sensor.last_update_ms <$> sensor_at bench 1 = Some 200
  ∧ get_last_update bench 1 = Some 100
  ∧ get_last_update bench 1 = Sensor.last_update_ms <$> sensor_at bench 0.
Proof. repeat split; reflexivity. Qed.

(** ** C2 *)

(** C2: for every instance index inside the array, [healthy] returns true
    exactly when the instance's [healthy], [alt_ok] and [calibrated] bits
    are all set, and false otherwise. *)
Theorem healthy_iff_all_flags (b : AP_Baro) (i : Z) :
  wf b → 0 ≤ i < BARO_MAX_INSTANCES →
  ∃ s, sensor_at b i = Some s
    ∧ (healthy b i = Some true ↔
         Sensor.healthy s = true ∧ Sensor.alt_ok s = true
         ∧ Sensor.calibrated s = true)
    ∧ (healthy b i = Some false ↔
         ¬ (Sensor.healthy s = true ∧ Sensor.alt_ok s = true
            ∧ Sensor.calibrated s = true)).
Proof.
  intros Hwf Hi. destruct (sensor_at_Some b i Hwf Hi) as [s Hs].
  exists s. split; [done|]. unfold_accessors. rewrite Hs. simpl.
  destruct (Sensor.healthy s), (Sensor.alt_ok s), (Sensor.calibrated s);
    simpl; intuition congruence.
Qed.

Lemma healthy_iff_all_flags_witness :
  ∃ s, sensor_at bench 2 = Some s
    ∧ (healthy bench 2 = Some true ↔
         Sensor.healthy s = true ∧ Sensor.alt_ok s = true
         ∧ Sensor.calibrated s = true)
    ∧ (healthy bench 2 = Some false ↔
         ¬ (Sensor.healthy s = true ∧ Sensor.alt_ok s = true
            ∧ Sensor.calibrated s = true)).
Proof.
  apply (healthy_iff_all_flags bench 2).
  - reflexivity.
  - unfold BARO_MAX_INSTANCES. lia.
Defined.

(** ** The inline mutators and the health bits

    [set_type] and [set_precision_multiplier] are the only operations with
    a body in the header that write the array; neither changes what
    [healthy] returns for any instance. *)

Lemma sensor_store_healthy (b b' : AP_Baro) (i j : Z) (s s' : Sensor.t) :
  sensor_at b i = Some s →
  Sensor.healthy s' = Sensor.healthy s →
  Sensor.alt_ok s' = Sensor.alt_ok s →
  Sensor.calibrated s' = Sensor.calibrated s →
  sensor_store i s' b = Some b' → healthy b' j = healthy b j.
Proof.
  intros Hs Hh Ha Hc Hb'. unfold healthy.
  destruct (decide (i = j)) as [<-|Hne].
  - rewrite (sensor_at_store_eq _ _ _ _ Hb'), Hs. simpl.
    by rewrite Hh, Ha, Hc.
  - unfold sensor_store in Hb'. rewrite Hs in Hb'. injection Hb' as <-.
    unfold sensor_at in *. simpl.
    destruct (0 <=? j) eqn:Hj; [|done].
    destruct (0 <=? i) eqn:Hi; [|done].
    rewrite list_lookup_insert_ne; [done|].
    apply Z.leb_le in Hi, Hj. lia.
Qed.

Lemma inline_mutators_keep_health_bits (b b' : AP_Baro) (i v j : Z) :
  set_type i v b = Some b' ∨ set_precision_multiplier i v b = Some b' →
  healthy b' j = healthy b j.
Proof.
  unfold set_type, set_precision_multiplier.
  destruct (sensor_at b i) as [s|] eqn:Hs; simpl; [|by intros [|]].
  intros [Hb'|Hb'];
    (eapply sensor_store_healthy; [exact Hs | | | | exact Hb']; reflexivity).
Qed.

(** ** C4 *)

(** C4: each accessor without an instance argument gives what the
    accessor with an instance argument gives at [_primary], in every
    state; when [_primary] lies inside the array that is the field of the
    primary's record. *)
Theorem void_accessors_resolve_to_primary (b : AP_Baro) :
  (healthy_void b = healthy b (_primary b)
   ∧ get_pressure_void b = get_pressure b (_primary b)
   ∧ get_temperature_void b = get_temperature b (_primary b)
   ∧ get_altitude_void b = get_altitude b (_primary b)
   ∧ get_ground_temperature_void b = get_ground_temperature b (_primary b)
   ∧ get_ground_pressure_void b = get_ground_pressure b (_primary b))
  ∧ ∀ s, sensor_at b (_primary b) = Some s →
      healthy_void b
        = Some (Sensor.healthy s && Sensor.alt_ok s && Sensor.calibrated s)
      ∧ get_pressure_void b = Some (Sensor.pressure s)
      ∧ get_temperature_void b = Some (Sensor.temperature s)
      ∧ get_altitude_void b = Some (Sensor.altitude s)
      ∧ get_ground_temperature_void b = Some (Sensor.ground_temperature s)
      ∧ get_ground_pressure_void b = Some (Sensor.ground_pressure s).
Proof.
  split; [by repeat split|].
  intros s Hs. unfold_accessors. rewrite Hs. by repeat split.
Qed.

Lemma void_accessors_resolve_to_primary_witness :
  get_pressure_void bench = get_pressure bench 0
  ∧ get_pressure_void bench = Some (F32.of_Z 101325)
  ∧ healthy_void bench = Some true.
Proof.
  destruct (void_accessors_resolve_to_primary bench) as [Heq Hfield].
  destruct (Hfield (bench_sensor 100 true true true 101325 15 0))
    as (Hh & Hp & _); [reflexivity|].
  split; [apply Heq|]. split; [exact Hp | exact Hh].
Defined.

(** ** C6 *)

Lemma accessors_read_fields (b : AP_Baro) (i : Z) (s : Sensor.t) :
  sensor_at b i = Some s →
  get_pressure b i = Some (Sensor.pressure s)
  ∧ get_temperature b i = Some (Sensor.temperature s)
  ∧ get_altitude b i = Some (Sensor.altitude s).
Proof.
  intros Hs. unfold_accessors. by rewrite Hs.
Qed.

(** C6: for an instance inside the array, [get_pressure],
    [get_temperature] and [get_altitude] return the stored field, and they
    still return the same values after the instance's three health bits
    and its time stamp are overwritten with arbitrary values: no flag or
    age makes them fail or answer with another value. *)
Theorem accessors_return_stored_value (b : AP_Baro) (i : Z) (s : Sensor.t) :
  sensor_at b i = Some s →
  (get_pressure b i = Some (Sensor.pressure s)
   ∧ get_temperature b i = Some (Sensor.temperature s)
   ∧ get_altitude b i = Some (Sensor.altitude s))
  ∧ ∀ (h a c : bool) (ms : Z),
      ∃ b', sensor_store i (Sensor.set_status h a c ms s) b = Some b'
        ∧ healthy b' i = Some (h && a && c)
        ∧ get_pressure b' i = Some (Sensor.pressure s)
        ∧ get_temperature b' i = Some (Sensor.temperature s)
        ∧ get_altitude b' i = Some (Sensor.altitude s).
Proof.
  intros Hs. split; [by apply accessors_read_fields|].
  intros h a c ms.
  destruct (sensor_store_is_Some b i (Sensor.set_status h a c ms s))
    as [b' Hb']; [by eexists|].
  exists b'. split; [done|].
  pose proof (sensor_at_store_eq _ _ _ _ Hb') as Hat.
  split; [unfold healthy; by rewrite Hat|].
  by apply (accessors_read_fields b' i) in Hat.
Qed.

Lemma accessors_return_stored_value_witness :
  (get_pressure bench 1 = Some (F32.of_Z 99000)
   ∧ get_temperature bench 1 = Some (F32.of_Z 20)
   ∧ get_altitude bench 1 = Some (F32.of_Z 12))
  ∧ ∃ b', sensor_store 1
            (Sensor.set_status true true true 0
               (bench_sensor 200 false false false 99000 20 12)) bench
          = Some b'
      ∧ healthy b' 1 = Some true
      ∧ get_pressure b' 1 = Some (F32.of_Z 99000).
Proof.
  destruct (accessors_return_stored_value bench 1
              (bench_sensor 200 false false false 99000 20 12))
    as [Hnow Hany]; [reflexivity|].
  split; [exact Hnow|].
  destruct (Hany true true true 0) as (b' & Hb' & Hh & Hp & _).
  exists b'. split; [exact Hb'|]. split; [exact Hh | exact Hp].
Defined.

(** ** C10 *)

(** C10: the accessors with an instance argument index the array without
    a check.  With the array at its declared size, every index below
    [BARO_MAX_INSTANCES] gives a result, the field of that element, and
    every index from [BARO_MAX_INSTANCES] on gives none. *)
Theorem indexed_accessors_defined_in_range (b : AP_Baro) (i : Z) :
  wf b →
  (0 ≤ i < BARO_MAX_INSTANCES →
   ∃ s, sensor_at b i = Some s
     ∧ healthy b i
         = Some (Sensor.healthy s && Sensor.alt_ok s && Sensor.calibrated s)
     ∧ get_pressure b i = Some (Sensor.pressure s)
     ∧ get_temperature b i = Some (Sensor.temperature s)
     ∧ get_altitude b i = Some (Sensor.altitude s)
     ∧ get_ground_temperature b i = Some (Sensor.ground_temperature s)
     ∧ get_ground_pressure b i = Some (Sensor.ground_pressure s))
  ∧ (BARO_MAX_INSTANCES ≤ i →
     healthy b i = None ∧ get_pressure b i = None
     ∧ get_temperature b i = None ∧ get_altitude b i = None
     ∧ get_ground_temperature b i = None ∧ get_ground_pressure b i = None).
Proof.
  intros Hwf. unfold_accessors. split.
  - intros Hi. destruct (sensor_at_Some b i Hwf Hi) as [s Hs].
    exists s. rewrite Hs. by repeat split.
  - intros Hi. rewrite (sensor_at_None b i Hwf Hi). by repeat split.
Qed.

Lemma indexed_accessors_defined_in_range_witness :
  (∃ s, sensor_at bench 2 = Some s
     ∧ healthy bench 2
         = Some (Sensor.healthy s && Sensor.alt_ok s && Sensor.calibrated s)
     ∧ get_pressure bench 2 = Some (Sensor.pressure s)
     ∧ get_temperature bench 2 = Some (Sensor.temperature s)
     ∧ get_altitude bench 2 = Some (Sensor.altitude s)
     ∧ get_ground_temperature bench 2 = Some (Sensor.ground_temperature s)
     ∧ get_ground_pressure bench 2 = Some (Sensor.ground_pressure s))
  ∧ get_pressure bench 3 = None.
Proof.
  split.
  - apply (indexed_accessors_defined_in_range bench 2 wf_bench).
    unfold BARO_MAX_INSTANCES. lia.
  - apply (indexed_accessors_defined_in_range bench 3 wf_bench).
    unfold BARO_MAX_INSTANCES. lia.
Defined.

(** ** C5 *)

Lemma register_sensor_free (b : AP_Baro) :
  0 ≤ _num_sensors b < BARO_MAX_INSTANCES →
  register_sensor b
    = (with_num_sensors (_num_sensors b + 1) b, Returns (_num_sensors b)).
Proof.
  unfold register_sensor, BARO_MAX_INSTANCES, uint8_t. intros Hn.
  destruct (Z.leb_spec 3 (_num_sensors b)) as [|_]; [lia|].
  by rewrite Z.mod_small by lia.
Qed.

Lemma register_sensor_full (b : AP_Baro) :
  BARO_MAX_INSTANCES ≤ _num_sensors b → register_sensor b = (b, Panics).
Proof.
  unfold register_sensor. intros Hn.
  by destruct (Z.leb_spec BARO_MAX_INSTANCES (_num_sensors b)); [|lia].
Qed.

Lemma register_sensor_returns (b b' : AP_Baro) (i : Z) :
  register_sensor b = (b', Returns i) →
  i = _num_sensors b ∧ i < BARO_MAX_INSTANCES.
Proof.
  unfold register_sensor.
  destruct (Z.leb_spec BARO_MAX_INSTANCES (_num_sensors b)); [done|].
  by intros [= _ <-].
Qed.

Lemma sensor_store_num_sensors (b b' : AP_Baro) (i : Z) (s : Sensor.t) :
  sensor_store i s b = Some b' → _num_sensors b' = _num_sensors b.
Proof.
  unfold sensor_store. destruct (sensor_at b i); [|done]. by intros [= <-].
Qed.

Lemma exec_op_num_sensors (k : nat) (ir : reading → bool) (o : op)
    (b b' : AP_Baro) :
  0 ≤ _num_sensors b → exec_op k ir o b = Some b' →
  _num_sensors b ≤ _num_sensors b'.
Proof.
  intros Hn. destruct o; simpl.
  - by intros [= <-].
  - unfold set_type. destruct (sensor_at b instance); [|done]. simpl.
    intros H%sensor_store_num_sensors. lia.
  - unfold set_precision_multiplier.
    destruct (sensor_at b instance); [|done]. simpl.
    intros H%sensor_store_num_sensors. lia.
  - by intros [= <-].
  - by intros [= <-].
  - unfold register_sensor, uint8_t, BARO_MAX_INSTANCES.
    destruct (Z.leb_spec 3 (_num_sensors b)); [done|].
    intros [= <-]. simpl. rewrite Z.mod_small by lia. lia.
  - unfold setHIL. destruct (sensor_at b instance); [|done]. simpl.
    intros H%sensor_store_num_sensors. simpl in H. lia.
  - by intros [= <-].
Qed.

Lemma exec_num_sensors (k : nat) (ir : reading → bool) (os : list op) :
  ∀ b b', 0 ≤ _num_sensors b → exec k ir os b = Some b' →
          _num_sensors b ≤ _num_sensors b'.
Proof.
  induction os as [|o os IH]; intros b b' Hn; simpl.
  - by intros [= <-].
  - destruct (exec_op k ir o b) as [b1|] eqn:Hop; [|done]. simpl.
    intros Hrest.
    pose proof (exec_op_num_sensors _ _ _ _ _ Hn Hop) as Hstep.
    assert (_num_sensors b1 ≤ _num_sensors b') by (apply IH; [lia|done]).
    lia.
Qed.

(** C5: while a slot is free [register_sensor] returns the next index and
    claims it; once [BARO_MAX_INSTANCES] slots are claimed it panics and
    the state is the one it was called in.  Being a function of the state,
    the outcome is the same on every run.  Over any run of the operations
    the number of claimed slots never goes down, and an index returned
    later is never one claimed before.  Starting with no slot claimed, the
    calls return 0, 1 and 2, and the fourth call panics. *)
Theorem register_sensor_claims_next_slot (k : nat) (ir : reading → bool) :
  (∀ b, 0 ≤ _num_sensors b < BARO_MAX_INSTANCES →
     register_sensor b
       = (with_num_sensors (_num_sensors b + 1) b, Returns (_num_sensors b)))
  ∧ (∀ b, BARO_MAX_INSTANCES ≤ _num_sensors b →
       register_sensor b = (b, Panics))
  ∧ (∀ os b b', 0 ≤ _num_sensors b → exec k ir os b = Some b' →
       _num_sensors b ≤ _num_sensors b'
       ∧ ∀ b'' i, register_sensor b' = (b'', Returns i) →
           _num_sensors b ≤ i < BARO_MAX_INSTANCES)
  ∧ (∀ b, _num_sensors b = 0 →
       let r1 := register_sensor b in
       let r2 := register_sensor r1.1 in
       let r3 := register_sensor r2.1 in
       r1.2 = Returns 0 ∧ r2.2 = Returns 1 ∧ r3.2 = Returns 2
       ∧ sensors r3.1 = sensors b
       ∧ register_sensor r3.1 = (r3.1, Panics)).
Proof.
  split; [exact register_sensor_free|].
  split; [exact register_sensor_full|].
  split.
  - intros os b b' Hn Hex.
    pose proof (exec_num_sensors k ir os b b' Hn Hex) as Hle.
    split; [done|]. intros b'' i [-> Hlt]%register_sensor_returns. lia.
  - intros b Hb. simpl.
    rewrite (register_sensor_free b) by (rewrite Hb; done). simpl.
    rewrite register_sensor_free by (simpl; rewrite Hb; done). simpl.
    rewrite register_sensor_free by (simpl; rewrite Hb; done). simpl.
    rewrite Hb. by repeat split.
Qed.

Lemma register_sensor_claims_next_slot_witness :
  register_sensor bench
    = (with_num_sensors (_num_sensors bench + 1) bench, Returns 2)
  ∧ register_sensor (with_num_sensors 3 bench)
    = (with_num_sensors 3 bench, Panics)
  ∧ (register_sensor
       (register_sensor
          (register_sensor (register_sensor bench_fresh).1).1).1).2
    = Panics.
Proof.
  destruct (register_sensor_claims_next_slot 2 bench_in_range)
    as (Hfree & Hfull & _ & Hrun).
  split; [apply (Hfree bench); by vm_compute|].
  split; [apply (Hfull (with_num_sensors 3 bench)); by vm_compute|].
  destruct (Hrun bench_fresh) as (_ & _ & _ & _ & Hlast); [reflexivity|].
  by rewrite Hlast.
Defined.

(** ** C7 *)






(** ** C8 *)

Section Sampling.
Variable k : nat.
Variable ir : reading → bool.

Lemma accumulate_reading_in (cur : list reading) (r : reading) :
  ir r = true →
  accumulate_reading ir (accum_of cur) r = accum_of (cur ++ [r]).
Proof.
  intros Hr. unfold accumulate_reading, accum_of, sum_f32. rewrite Hr. simpl.
  rewrite !map_app, !fold_left_app, length_app. simpl.
  by rewrite Nat.add_1_r.
Qed.

Lemma accumulate_reading_out (a : accum) (r : reading) :
  ir r = false → accumulate_reading ir a r = accum_of [].
Proof. intros Hr. unfold accumulate_reading. by rewrite Hr. Qed.

Lemma forallb_in_range (l : list reading) :
  forallb ir l = true ↔ Forall (λ r, ir r = true) l.
Proof.
  induction l as [|r l IH]; simpl.
  - split; [by constructor | done].
  - rewrite andb_true_iff, IH, Forall_cons. done.
Qed.

(** Too few readings hold no block. *)
Lemma first_block_short (l : list reading) :
  (length l < k)%nat → first_block k ir l = None.
Proof.
  induction l as [|r l IH]; intros Hlen; [done|].
  cbn [first_block].
  assert (length (take k (r :: l)) ≠ k) as Hne
    by (rewrite length_take; simpl in *; lia).
  apply Nat.eqb_neq in Hne. rewrite Hne. simpl.
  apply IH. simpl in Hlen. lia.
Qed.

Lemma forallb_take_bad (pre rest : list reading) (r : reading) :
  ∀ n, (length pre < n)%nat → ir r = false →
       forallb ir (take n (pre ++ r :: rest)) = false.
Proof.
  induction pre as [|p pre IH]; intros n Hlen Hr;
    destruct n as [|n]; simpl in *; try lia.
  - by rewrite Hr.
  - rewrite (IH n) by (lia || done). apply andb_false_r.
Qed.

(** A window that starts at most [k - 1] readings before a reading out of
    range cannot be a block: the scan resumes after that reading. *)
Lemma first_block_skip (pre rest : list reading) (r : reading) :
  (length pre < k)%nat → ir r = false →
  first_block k ir (pre ++ r :: rest) = first_block k ir rest.
Proof.
  induction pre as [|p pre IH]; intros Hlen Hr.
  - pose proof (forallb_take_bad [] rest r k Hlen Hr) as Hbad.
    cbn [app] in *. cbn [first_block]. by rewrite Hbad, andb_false_r.
  - cbn [app first_block]. change (p :: pre ++ r :: rest)
      with ((p :: pre) ++ r :: rest).
    rewrite (forallb_take_bad (p :: pre) rest r k Hlen Hr).
    rewrite andb_false_r. apply IH; [|done]. simpl in Hlen. lia.
Qed.

Lemma first_block_window (run rest : list reading) :
  (0 < k)%nat → length run = k → Forall (λ r, ir r = true) run →
  first_block k ir (run ++ rest) = Some run.
Proof.
  intros Hk Hlen Hin.
  assert (take k (run ++ rest) = run) as Htake
    by (rewrite <- Hlen; apply take_app_length).
  destruct run as [|r run]; [simpl in Hlen; lia|].
  cbn [app first_block]. change (r :: run ++ rest) with ((r :: run) ++ rest).
  rewrite Htake, Hlen, Nat.eqb_refl.
  apply forallb_in_range in Hin. by rewrite Hin.
Qed.

(** The running sums of the sampling loop are those of the first block. *)
Lemma sample_instance_first_block_from (rs : list reading) :
  ∀ cur, Forall (λ r, ir r = true) cur → (length cur < k)%nat →
    sample_instance k ir (accum_of cur) rs
      = accum_of <$> first_block k ir (cur ++ rs).
Proof.
  induction rs as [|r rs IH]; intros cur Hcur Hlen.
  - rewrite app_nil_r, first_block_short by done. done.
  - cbn [sample_instance]. destruct (ir r) eqn:Hr.
    + rewrite (accumulate_reading_in cur r Hr).
      assert (Forall (λ r, ir r = true) (cur ++ [r])) as Hcur'
        by (apply Forall_app; split; [done | by constructor]).
      assert (length (cur ++ [r]) = S (length cur)) as Hlen'
        by (rewrite length_app; simpl; lia).
      replace (cur ++ r :: rs) with ((cur ++ [r]) ++ rs)
        by (by rewrite <- app_assoc).
      cbn [acc_count accum_of]. rewrite Hlen'.
      destruct (Nat.leb_spec k (S (length cur))) as [Hge|Hlt].
      * rewrite first_block_window; [done|lia|lia|done].
      * apply IH; [done|lia].
    + rewrite (accumulate_reading_out _ r Hr).
      rewrite (first_block_skip cur rs r Hlen Hr).
      cbn [acc_count accum_of length].
      destruct (Nat.leb_spec k 0) as [Hge|Hlt]; [lia|].
      apply (IH []); [by constructor|done].
Qed.

Lemma sample_instance_first_block (rs : list reading) :
  (0 < k)%nat →
  sample_instance k ir accum0 rs = accum_of <$> first_block k ir rs.
Proof.
  intros Hk. apply (sample_instance_first_block_from rs []);
    [by constructor | done].
Qed.

Lemma first_block_is_block (rs run : list reading) :
  first_block k ir rs = Some run → consecutive_in_range k ir run rs.
Proof.
  induction rs as [|r rs IH]; [done|]. cbn [first_block].
  destruct ((length (take k (r :: rs)) =? k)%nat
            && forallb ir (take k (r :: rs))) eqn:Hw.
  - intros [= <-]. apply andb_true_iff in Hw as [Hlen Hin].
    split; [by apply Nat.eqb_eq|]. split; [by apply forallb_in_range|].
    exists [], (drop k (r :: rs)). by rewrite app_nil_l, take_drop.
  - intros (Hlen & Hin & pre & post & ->)%IH.
    split; [done|]. split; [done|]. by exists (r :: pre), post.
Qed.

Lemma first_block_finds (rs : list reading) :
  (0 < k)%nat → (∃ run, consecutive_in_range k ir run rs) →
  is_Some (first_block k ir rs).
Proof.
  intros Hk (run & Hlen & Hin & pre & post & ->).
  induction pre as [|p pre IH].
  - rewrite app_nil_l, first_block_window by done. by eexists.
  - cbn [app first_block].
    destruct (_ && _); [by eexists | exact IH].
Qed.

Lemma accum_mean_of (run : list reading) :
  accum_mean_pressure (accum_of run) = mean_f32 (map r_pressure run)
  ∧ accum_mean_temperature (accum_of run) = mean_f32 (map r_temperature run).
Proof.
  unfold accum_mean_pressure, accum_mean_temperature, mean_f32, accum_of.
  simpl. by rewrite !length_map.
Qed.

Lemma sensor_at_calibrate (rounds : list (list reading)) (b : AP_Baro)
    (i : Z) (s : Sensor.t) :
  sensor_at b i = Some s → 0 ≤ i < _num_sensors b →
  sensor_at (calibrate k ir rounds b) i
    = Some (calibrate_instance k ir (_base_pressure b)
              (_reset_base_pressure b) s (readings_of (Z.to_nat i) rounds)).
Proof.
  unfold sensor_at, calibrate. intros Hs Hi. simpl.
  destruct (0 <=? i); [|done].
  rewrite list_lookup_imap, Hs. simpl.
  rewrite Z2Nat.id by lia.
  by destruct (Z.ltb_spec i (_num_sensors b)); [|lia].
Qed.

End Sampling.

(** C8, as stated, fails for a liquid-type instance.  On the water bench
    instance 0 is healthy at the start and its readings hold a block of
    two consecutive in-range samples, whose average pressure is 101325 Pa;
    the call ends with the instance calibrated and its ground pressure at
    the persisted base pressure, 98000 Pa, not at the average. *)
Lemma calibrate_water_takes_base_pressure :
  ∃ s s' run,
    sensor_at bench_water 0 = Some s
    ∧ Sensor.healthy s = true
    ∧ first_block 2 bench_in_range (readings_of 0 bench_rounds) = Some run
    ∧ sensor_at (calibrate 2 bench_in_range bench_rounds bench_water) 0
      = Some s'
    ∧ Sensor.calibrated s' = true
    ∧ mean_f32 (map r_pressure run) = F32.of_Z 101325
    ∧ Sensor.ground_pressure s' = F32.of_Z 98000
    ∧ Sensor.ground_pressure s' ≠ mean_f32 (map r_pressure run).
Proof.
  eexists. eexists. eexists.
  split; [reflexivity|]. split; [reflexivity|]. split; [reflexivity|].
  split; [reflexivity|]. split; [reflexivity|]. split; [reflexivity|].
  split; [reflexivity|]. vm_compute. discriminate.
Qed.

(** C8, amended: for a registered instance, [calibrate] leaves the
    [calibrated] bit clear when the instance's [healthy] bit is clear at
    the start.  When the bit is set at the start and the instance's
    readings over the rounds hold a block of the required number of
    consecutive in-range samples, the call ends with [calibrated] set and
    the ground temperature equal to the binary32 mean over the first such
    block; the ground pressure is the mean over that block for an instance
    that is not of liquid type, and for a liquid-type instance it is the
    persisted base pressure, unless the reset flag is set, when it is the
    mean as well.  When the readings hold no such block the bit stays
    clear. *)
Theorem calibrate_skips_unhealthy (k : nat) (ir : reading → bool)
    (rounds : list (list reading)) (b : AP_Baro) (i : Z) (s : Sensor.t) :
  sensor_at b i = Some s → 0 ≤ i < _num_sensors b →
  ∃ s', sensor_at (calibrate k ir rounds b) i = Some s'
    ∧ (Sensor.healthy s = false → Sensor.calibrated s' = false)
    ∧ ((0 < k)%nat →
       (is_Some (first_block k ir (readings_of (Z.to_nat i) rounds))
        ↔ ∃ run, consecutive_in_range k ir run
                   (readings_of (Z.to_nat i) rounds)))
    ∧ (Sensor.healthy s = true → (0 < k)%nat →
       first_block k ir (readings_of (Z.to_nat i) rounds) = None →
       Sensor.calibrated s' = false)
    ∧ (Sensor.healthy s = true → (0 < k)%nat →
       ∀ run, first_block k ir (readings_of (Z.to_nat i) rounds) = Some run →
         Sensor.calibrated s' = true
         ∧ Sensor.ground_temperature s' = mean_f32 (map r_temperature run)
         ∧ (Sensor.type s ≠ BARO_TYPE_WATER →
            Sensor.ground_pressure s' = mean_f32 (map r_pressure run))
         ∧ (Sensor.type s = BARO_TYPE_WATER → _reset_base_pressure b = 0 →
            Sensor.ground_pressure s' = _base_pressure b)
         ∧ (Sensor.type s = BARO_TYPE_WATER → _reset_base_pressure b ≠ 0 →
            Sensor.ground_pressure s' = mean_f32 (map r_pressure run))).
Proof.
  intros Hs Hi. eexists. split; [by apply sensor_at_calibrate|].
  set (rs := readings_of (Z.to_nat i) rounds).
  unfold calibrate_instance. split; [|split; [|split]].
  - intros Hh. by rewrite Hh.
  - intros Hk. split.
    + intros [run Hrun]. exists run. by apply first_block_is_block.
    + by apply first_block_finds.
  - intros Hh Hk Hnone.
    by rewrite Hh, sample_instance_first_block, Hnone.
  - intros Hh Hk run Hrun.
    rewrite Hh, sample_instance_first_block, Hrun by done. simpl.
    destruct (accum_mean_of run) as [-> ->].
    split; [done|]. split; [done|]. unfold ground_reference.
    split; [|split].
    + intros Hair%Z.eqb_neq. by rewrite Hair.
    + intros -> ->. done.
    + intros _ Hset%Z.eqb_neq. by rewrite Hset, andb_false_r.
Qed.

Lemma calibrate_skips_unhealthy_witness :
  (∃ s', sensor_at (calibrate 2 bench_in_range bench_rounds bench) 1
           = Some s'
     ∧ Sensor.calibrated s' = false)
  ∧ (∃ s', sensor_at (calibrate 2 bench_in_range bench_rounds bench) 0
             = Some s'
       ∧ Sensor.calibrated s' = true
       ∧ Sensor.ground_temperature s'
           = mean_f32 (map r_temperature
                         [bench_reading 101320 16; bench_reading 101330 14])
       ∧ Sensor.ground_pressure s'
           = mean_f32 (map r_pressure
                         [bench_reading 101320 16; bench_reading 101330 14]))
  ∧ (∃ s', sensor_at (calibrate 2 bench_in_range bench_rounds bench_water) 0
             = Some s'
       ∧ Sensor.ground_pressure s' = _base_pressure bench_water).
Proof.
  split; [|split].
  - destruct (calibrate_skips_unhealthy 2 bench_in_range bench_rounds bench 1
                (bench_sensor 200 false false false 99000 20 12))
      as (s' & Hat & Hskip & _); [reflexivity | simpl; lia |].
    exists s'. split; [exact Hat | apply Hskip; reflexivity].
  - destruct (calibrate_skips_unhealthy 2 bench_in_range bench_rounds bench 0
                (bench_sensor 100 true true true 101325 15 0))
      as (s' & Hat & _ & _ & _ & Hcal); [reflexivity | simpl; lia |].
    exists s'. split; [exact Hat|].
    destruct (Hcal eq_refl ltac:(lia)
                [bench_reading 101320 16; bench_reading 101330 14] eq_refl)
      as (Hc & Ht & Hair & _).
    split; [exact Hc|]. split; [exact Ht|]. apply Hair. by vm_compute.
  - destruct (calibrate_skips_unhealthy 2 bench_in_range bench_rounds
                bench_water 0
                (Sensor.set_type BARO_TYPE_WATER
                   (bench_sensor 100 true true true 101325 15 0)))
      as (s' & Hat & _ & _ & _ & Hcal); [reflexivity | simpl; lia |].
    exists s'. split; [exact Hat|].
    destruct (Hcal eq_refl ltac:(lia)
                [bench_reading 101320 16; bench_reading 101330 14] eq_refl)
      as (_ & _ & _ & Hwater & _).
    apply Hwater; reflexivity.
Defined.

(** * Further properties of the operations of the header *)

(** ** Writing one element of the array *)

Lemma sensor_at_is_Some_iff (b : AP_Baro) (i : Z) :
  wf b → is_Some (sensor_at b i) ↔ 0 ≤ i < BARO_MAX_INSTANCES.
Proof.
  intros Hwf. split.
  - unfold wf, sensor_at, BARO_MAX_INSTANCES in *.
    destruct (Z.leb_spec 0 i); [|by intros [? ?]].
    intros Hi%lookup_lt_is_Some. lia.
  - by apply sensor_at_Some.
Qed.

Lemma sensor_store_inv (b b' : AP_Baro) (i : Z) (s : Sensor.t) :
  sensor_store i s b = Some b' →
  0 ≤ i ∧ (Z.to_nat i < length (sensors b))%nat
  ∧ b' = with_sensors (<[Z.to_nat i := s]> (sensors b)) b.
Proof.
  unfold sensor_store, sensor_at.
  destruct (Z.leb_spec 0 i); [|done].
  destruct (sensors b !! Z.to_nat i) eqn:Hat; [|done].
  intros [= <-]. split; [done|]. split; [|done].
  by eapply lookup_lt_Some.
Qed.

Lemma sensor_at_store (b b' : AP_Baro) (i j : Z) (s : Sensor.t) :
  sensor_store i s b = Some b' →
  sensor_at b' j = if decide (i = j) then Some s else sensor_at b j.
Proof.
  intros Hst. case_decide as Hij.
  - subst j. by eapply sensor_at_store_eq.
  - destruct (sensor_store_inv _ _ _ _ Hst) as (Hi & _ & ->).
    unfold sensor_at. simpl.
    destruct (Z.leb_spec 0 j); [|done].
    apply list_lookup_insert_ne. lia.
Qed.

Lemma sensor_store_wf (b b' : AP_Baro) (i : Z) (s : Sensor.t) :
  sensor_store i s b = Some b' → wf b → wf b'.
Proof.
  intros (_ & _ & ->)%sensor_store_inv. unfold wf. simpl.
  by rewrite length_insert.
Qed.

Lemma sensor_store_agree {A : Type} (f : Sensor.t → A) (b b' : AP_Baro)
    (i j : Z) (s s' : Sensor.t) :
  sensor_at b i = Some s → f s' = f s → sensor_store i s' b = Some b' →
  (sensor_at b' j ≫= λ x, Some (f x)) = (sensor_at b j ≫= λ x, Some (f x)).
Proof.
  intros Hs Hf Hst. rewrite (sensor_at_store _ _ _ j _ Hst).
  case_decide as Hij; [|done]. subst j. rewrite Hs. simpl. by rewrite Hf.
Qed.

Lemma primary_readings_eq (b b' : AP_Baro) :
  _primary b' = _primary b →
  readings b' (_primary b) = readings b (_primary b) →
  _num_sensors b' = _num_sensors b →
  _alt_offset_active b' = _alt_offset_active b →
  primary_readings b' = primary_readings b.
Proof.
  unfold primary_readings, readings, healthy_void, get_pressure_void,
    get_temperature_void, get_altitude_void, get_ground_temperature_void,
    get_ground_pressure_void, get_last_update_void, num_instances,
    get_baro_drift_offset.
  intros -> [= -> -> -> -> -> -> ->] -> ->. reflexivity.
Qed.

Lemma sensor_store_readings (b b' : AP_Baro) (i : Z) (s s' : Sensor.t) :
  sensor_at b i = Some s → same_readings s s' →
  sensor_store i s' b = Some b' →
  (∀ j, readings b' j = readings b j)
  ∧ primary_readings b' = primary_readings b.
Proof.
  intros Hs (Hms & Hh & Ha & Hc & Hp & Ht & Hal & Hgt & Hgp) Hst.
  assert (∀ j, readings b' j = readings b j) as Hall.
  { intros j. unfold readings, healthy, get_pressure, get_temperature,
      get_altitude, get_ground_temperature, get_ground_pressure,
      get_last_update.
    destruct (sensor_store_inv _ _ _ _ Hst) as (_ & _ & Hb').
    replace (_primary b') with (_primary b) by (by rewrite Hb').
    assert (Sensor.healthy s' && Sensor.alt_ok s' && Sensor.calibrated s'
            = Sensor.healthy s && Sensor.alt_ok s && Sensor.calibrated s)
      as Hflags by (by rewrite Hh, Ha, Hc).
    rewrite (sensor_store_agree
               (λ x, Sensor.healthy x && Sensor.alt_ok x
                     && Sensor.calibrated x) b b' i j s s' Hs Hflags Hst).
    rewrite (sensor_store_agree Sensor.pressure b b' i j s s' Hs Hp Hst).
    rewrite (sensor_store_agree Sensor.temperature b b' i j s s' Hs Ht Hst).
    rewrite (sensor_store_agree Sensor.altitude b b' i j s s' Hs Hal Hst).
    rewrite (sensor_store_agree Sensor.ground_temperature b b' i j s s'
               Hs Hgt Hst).
    rewrite (sensor_store_agree Sensor.ground_pressure b b' i j s s'
               Hs Hgp Hst).
    by rewrite (sensor_store_agree Sensor.last_update_ms b b' i (_primary b)
                  s s' Hs Hms Hst). }
  split; [done|].
  destruct (sensor_store_inv _ _ _ _ Hst) as (_ & _ & Hb').
  apply primary_readings_eq; [by rewrite Hb' | apply Hall | by rewrite Hb'..].
Qed.

(** ** [set_type] and [set_precision_multiplier] *)

Lemma set_type_inv (b b' : AP_Baro) (i v : Z) :
  set_type i v b = Some b' →
  ∃ s, sensor_at b i = Some s
    ∧ sensor_store i (Sensor.set_type v s) b = Some b'.
Proof.
  unfold set_type. destruct (sensor_at b i) as [s|] eqn:Hs; [|done].
  simpl. intros Hst. by exists s.
Qed.

Lemma set_precision_multiplier_inv (b b' : AP_Baro) (i v : Z) :
  set_precision_multiplier i v b = Some b' →
  ∃ s, sensor_at b i = Some s
    ∧ sensor_store i (Sensor.set_precision_multiplier v s) b = Some b'.
Proof.
  unfold set_precision_multiplier.
  destruct (sensor_at b i) as [s|] eqn:Hs; [|done].
  simpl. intros Hst. by exists s.
Qed.

Lemma set_type_is_Some (b : AP_Baro) (i v : Z) :
  is_Some (set_type i v b) ↔ is_Some (sensor_at b i).
Proof.
  unfold set_type. destruct (sensor_at b i) as [s|] eqn:Hs; simpl.
  - split; [by eexists|]. intros _. apply sensor_store_is_Some. by eexists.
  - split; by intros [? ?].
Qed.

Lemma set_precision_multiplier_is_Some (b : AP_Baro) (i v : Z) :
  is_Some (set_precision_multiplier i v b) ↔ is_Some (sensor_at b i).
Proof.
  unfold set_precision_multiplier.
  destruct (sensor_at b i) as [s|] eqn:Hs; simpl.
  - split; [by eexists|]. intros _. apply sensor_store_is_Some. by eexists.
  - split; by intros [? ?].
Qed.

(** X1: with the array at its declared size, [set_type] and
    [set_precision_multiplier] have a defined result exactly for the
    indices 0, 1 and 2; any other index is a write outside the array. *)
Theorem array_mutators_defined_iff_in_range (b : AP_Baro) (i v : Z) :
  wf b →
  (is_Some (set_type i v b) ↔ 0 ≤ i < BARO_MAX_INSTANCES)
  ∧ (is_Some (set_precision_multiplier i v b)
     ↔ 0 ≤ i < BARO_MAX_INSTANCES).
Proof.
  intros Hwf.
  rewrite set_type_is_Some, set_precision_multiplier_is_Some.
  split; by apply sensor_at_is_Some_iff.
Qed.

Lemma array_mutators_defined_iff_in_range_witness :
  is_Some (set_type 2 BARO_TYPE_WATER bench)
  ∧ ¬ is_Some (set_precision_multiplier 3 10 bench).
Proof.
  split.
  - apply (array_mutators_defined_iff_in_range bench 2 BARO_TYPE_WATER);
      [reflexivity | unfold BARO_MAX_INSTANCES; lia].
  - intros Hsome.
    apply (array_mutators_defined_iff_in_range bench 3 10) in Hsome;
      [unfold BARO_MAX_INSTANCES in Hsome; lia | reflexivity].
Defined.

(** X2: a successful [set_type] stores the type in the addressed element
    and keeps its precision multiplier; every other element is as before,
    every accessor reports the same for every index, with or without an
    instance argument, and the array keeps its size. *)
Theorem set_type_changes_type_only (b b' : AP_Baro) (i v : Z) :
  set_type i v b = Some b' →
  (∃ s s', sensor_at b i = Some s ∧ sensor_at b' i = Some s'
     ∧ Sensor.type s' = v
     ∧ Sensor.precision_multiplier s' = Sensor.precision_multiplier s)
  ∧ (∀ j, j ≠ i → sensor_at b' j = sensor_at b j)
  ∧ (∀ j, readings b' j = readings b j)
  ∧ primary_readings b' = primary_readings b
  ∧ (wf b → wf b').
Proof.
  intros (s & Hs & Hst)%set_type_inv.
  split; [|split; [|split; [|split]]].
  - exists s, (Sensor.set_type v s).
    by rewrite (sensor_at_store_eq _ _ _ _ Hst).
  - intros j Hj. rewrite (sensor_at_store _ _ _ j _ Hst).
    by case_decide.
  - by apply (sensor_store_readings b b' i s (Sensor.set_type v s)).
  - by apply (sensor_store_readings b b' i s (Sensor.set_type v s)).
  - by apply (sensor_store_wf b b' i (Sensor.set_type v s)).
Qed.

Lemma set_type_changes_type_only_witness :
  ∃ b', set_type 1 BARO_TYPE_WATER bench = Some b'
    ∧ (∃ s s', sensor_at bench 1 = Some s ∧ sensor_at b' 1 = Some s'
         ∧ Sensor.type s' = BARO_TYPE_WATER
         ∧ Sensor.precision_multiplier s' = Sensor.precision_multiplier s)
    ∧ (∀ j, readings b' j = readings bench j).
Proof.
  exists (default bench (set_type 1 BARO_TYPE_WATER bench)).
  split; [reflexivity|].
  split;
    apply (set_type_changes_type_only bench _ 1 BARO_TYPE_WATER);
    reflexivity.
Defined.

(** X3: a successful [set_precision_multiplier] stores the multiplier in
    the addressed element and keeps its type; every other element is as
    before, every accessor reports the same for every index, and the array
    keeps its size.  In particular the stored pressure is not rescaled. *)
Theorem set_precision_multiplier_changes_multiplier_only (b b' : AP_Baro)
    (i v : Z) :
  set_precision_multiplier i v b = Some b' →
  (∃ s s', sensor_at b i = Some s ∧ sensor_at b' i = Some s'
     ∧ Sensor.precision_multiplier s' = v
     ∧ Sensor.type s' = Sensor.type s)
  ∧ (∀ j, j ≠ i → sensor_at b' j = sensor_at b j)
  ∧ (∀ j, readings b' j = readings b j)
  ∧ primary_readings b' = primary_readings b
  ∧ (wf b → wf b').
Proof.
  intros (s & Hs & Hst)%set_precision_multiplier_inv.
  split; [|split; [|split; [|split]]].
  - exists s, (Sensor.set_precision_multiplier v s).
    by rewrite (sensor_at_store_eq _ _ _ _ Hst).
  - intros j Hj. rewrite (sensor_at_store _ _ _ j _ Hst).
    by case_decide.
  - by apply (sensor_store_readings b b' i s
                (Sensor.set_precision_multiplier v s)).
  - by apply (sensor_store_readings b b' i s
                (Sensor.set_precision_multiplier v s)).
  - by apply (sensor_store_wf b b' i (Sensor.set_precision_multiplier v s)).
Qed.

Lemma set_precision_multiplier_changes_multiplier_only_witness :
  ∃ b', set_precision_multiplier 0 10 bench = Some b'
    ∧ (∃ s s', sensor_at bench 0 = Some s ∧ sensor_at b' 0 = Some s'
         ∧ Sensor.precision_multiplier s' = 10
         ∧ Sensor.type s' = Sensor.type s)
    ∧ get_pressure b' 0 = Some (F32.of_Z 101325).
Proof.
  exists (default bench (set_precision_multiplier 0 10 bench)).
  split; [reflexivity|]. split.
  - apply (set_precision_multiplier_changes_multiplier_only bench _ 0 10).
    reflexivity.
  - reflexivity.
Defined.

Lemma sensor_store_store (b b1 : AP_Baro) (i : Z) (s1 s2 : Sensor.t) :
  sensor_store i s1 b = Some b1 →
  sensor_store i s2 b1 = sensor_store i s2 b.
Proof.
  intros Hst. pose proof (sensor_at_store_eq _ _ _ _ Hst) as Hat1.
  destruct (sensor_store_inv _ _ _ _ Hst) as (_ & _ & Hb1).
  unfold sensor_store in *. rewrite Hat1.
  destruct (sensor_at b i); [|done].
  rewrite Hb1. unfold with_sensors. simpl.
  by rewrite list_insert_insert_eq.
Qed.

(** X4: of two writes of the same field to the same element the later
    one wins: after a successful [set_type] (or
    [set_precision_multiplier]) a second one for the same index gives
    what it would have given alone. *)
Theorem array_mutators_last_write_wins (b : AP_Baro) (i v1 v2 : Z) :
  (∀ b1, set_type i v1 b = Some b1 →
         set_type i v2 b1 = set_type i v2 b)
  ∧ (∀ b1, set_precision_multiplier i v1 b = Some b1 →
           set_precision_multiplier i v2 b1
             = set_precision_multiplier i v2 b).
Proof.
  split; intros b1 Hb1.
  - apply set_type_inv in Hb1 as (s & Hs & Hst).
    unfold set_type. rewrite Hs, (sensor_at_store_eq _ _ _ _ Hst). simpl.
    apply (sensor_store_store _ _ _ _ _ Hst).
  - apply set_precision_multiplier_inv in Hb1 as (s & Hs & Hst).
    unfold set_precision_multiplier.
    rewrite Hs, (sensor_at_store_eq _ _ _ _ Hst). simpl.
    apply (sensor_store_store _ _ _ _ _ Hst).
Qed.

Lemma array_mutators_last_write_wins_witness :
  ∃ b1, set_type 1 BARO_TYPE_WATER bench = Some b1
    ∧ set_type 1 BARO_TYPE_AIR b1 = set_type 1 BARO_TYPE_AIR bench.
Proof.
  exists (default bench (set_type 1 BARO_TYPE_WATER bench)).
  split; [reflexivity|].
  apply (array_mutators_last_write_wins bench 1 BARO_TYPE_WATER
           BARO_TYPE_AIR).
  reflexivity.
Defined.

Lemma sensor_store_eq (b : AP_Baro) (i : Z) (s0 s : Sensor.t) :
  sensor_at b i = Some s0 →
  sensor_store i s b
    = Some (with_sensors (<[Z.to_nat i := s]> (sensors b)) b).
Proof. unfold sensor_store. by intros ->. Qed.

Lemma sensor_at_insert (b : AP_Baro) (i j : Z) (s0 s : Sensor.t) :
  sensor_at b i = Some s0 →
  sensor_at (with_sensors (<[Z.to_nat i := s]> (sensors b)) b) j
    = if decide (i = j) then Some s else sensor_at b j.
Proof.
  intros Hs. apply sensor_at_store. by eapply sensor_store_eq.
Qed.

(** X5: [set_type] and [set_precision_multiplier] commute, for the same
    element as for two different ones, and also when one of them has no
    defined result: both orders end in the same state or both in none. *)
Theorem set_type_set_precision_multiplier_commute (b : AP_Baro)
    (i t j m : Z) :
  set_type i t b ≫= set_precision_multiplier j m
  = set_precision_multiplier j m b ≫= set_type i t.
Proof.
  unfold set_type, set_precision_multiplier.
  destruct (sensor_at b i) as [si|] eqn:Hi;
    destruct (sensor_at b j) as [sj|] eqn:Hj; simpl.
  - rewrite (sensor_store_eq b i si _ Hi), (sensor_store_eq b j sj _ Hj).
    simpl. rewrite (sensor_at_insert b i j si _ Hi).
    rewrite (sensor_at_insert b j i sj _ Hj).
    destruct (decide (i = j)) as [->|Hne].
    + rewrite decide_True by done. simpl.
      assert (si = sj) as -> by congruence.
      rewrite (sensor_store_store b _ j (Sensor.set_type t sj) _
                 (sensor_store_eq b j sj _ Hj)).
      by rewrite (sensor_store_store b _ j
                    (Sensor.set_precision_multiplier m sj) _
                    (sensor_store_eq b j sj _ Hj)).
    + rewrite decide_False by done. rewrite Hi, Hj. simpl.
      assert (0 ≤ i ∧ 0 ≤ j) as [? ?].
      { unfold sensor_at in Hi, Hj.
        destruct (Z.leb_spec 0 i), (Z.leb_spec 0 j); done. }
      rewrite (sensor_store_eq _ j sj).
      2:{ rewrite (sensor_at_insert b i j si _ Hi). by rewrite decide_False. }
      rewrite (sensor_store_eq _ i si).
      2:{ rewrite (sensor_at_insert b j i sj _ Hj). by rewrite decide_False. }
      unfold with_sensors. simpl. do 2 f_equal.
      apply list_insert_insert_ne. lia.
  - rewrite (sensor_store_eq b i si _ Hi). simpl.
    rewrite (sensor_at_insert b i j si _ Hi).
    rewrite decide_False by congruence. by rewrite Hj.
  - rewrite (sensor_store_eq b j sj _ Hj). simpl.
    rewrite (sensor_at_insert b j i sj _ Hj).
    rewrite decide_False by congruence. by rewrite Hi.
  - done.
Qed.

(** ** Runs of the operations of the header *)

Section InlineRuns.
Variable k : nat.
Variable ir : reading → bool.

Lemma exec_op_inline_keeps (o : op) (b b' : AP_Baro) :
  inline_op o = true → exec_op k ir o b = Some b' →
  (∀ j, readings b' j = readings b j)
  ∧ primary_readings b' = primary_readings b
  ∧ (wf b → wf b')
  ∧ (_hil_mode b' = true ↔ _hil_mode b = true ∨ o = OpSetHilMode).
Proof.
  destruct o; simpl; try done; intros _.
  - intros [= <-]. repeat split; try done; [by left | by intros [|]].
  - intros (s & Hs & Hst)%set_type_inv.
    destruct (sensor_store_readings b b' instance s (Sensor.set_type type s))
      as [Hall Hprim]; [done..|].
    split; [done|]. split; [done|].
    split; [by eapply sensor_store_wf|].
    destruct (sensor_store_inv _ _ _ _ Hst) as (_ & _ & ->). simpl.
    split; [by left | by intros [|]].
  - intros (s & Hs & Hst)%set_precision_multiplier_inv.
    destruct (sensor_store_readings b b' instance s
                (Sensor.set_precision_multiplier multiplier s))
      as [Hall Hprim]; [done..|].
    split; [done|]. split; [done|].
    split; [by eapply sensor_store_wf|].
    destruct (sensor_store_inv _ _ _ _ Hst) as (_ & _ & ->). simpl.
    split; [by left | by intros [|]].
  - intros [= <-]. repeat split; try done. by right.
  - intros [= <-]. repeat split; try done; [by left | by intros [|]].
Qed.

Lemma exec_inline_keeps (os : list op) :
  ∀ b b', Forall (λ o, inline_op o = true) os →
    exec k ir os b = Some b' →
    (∀ j, readings b' j = readings b j)
    ∧ primary_readings b' = primary_readings b
    ∧ (wf b → wf b')
    ∧ (_hil_mode b' = true ↔ _hil_mode b = true ∨ OpSetHilMode ∈ os).
Proof.
  induction os as [|o os IH]; intros b b' Hin; simpl.
  - intros [= <-]. repeat split; try done; [by left|].
    intros [|Hel]; [done|]. by apply elem_of_nil in Hel.
  - inversion Hin as [|? ? Ho Hos]; subst.
    destruct (exec_op k ir o b) as [b1|] eqn:Hop; [|done]. simpl.
    intros Hrest.
    destruct (exec_op_inline_keeps o b b1 Ho Hop) as (R1 & P1 & W1 & M1).
    destruct (IH b1 b' Hos Hrest) as (R2 & P2 & W2 & M2).
    split; [intros j; by rewrite R2, R1|].
    split; [by rewrite P2, P1|].
    split; [by intros ?%W1%W2|].
    rewrite M2, M1, elem_of_cons. intuition.
Qed.

Lemma exec_op_inline_defined (o : op) (b : AP_Baro) :
  wf b → inline_op o = true →
  is_Some (exec_op k ir o b) ↔ op_in_range o = true.
Proof.
  intros Hwf. destruct o; simpl; try done; intros _.
  - rewrite set_type_is_Some, (sensor_at_is_Some_iff b instance Hwf).
    rewrite andb_true_iff, Z.leb_le, Z.ltb_lt. tauto.
  - rewrite set_precision_multiplier_is_Some,
      (sensor_at_is_Some_iff b instance Hwf).
    rewrite andb_true_iff, Z.leb_le, Z.ltb_lt. tauto.
Qed.

Lemma exec_inline_defined (os : list op) :
  ∀ b, wf b → Forall (λ o, inline_op o = true) os →
    is_Some (exec k ir os b) ↔ Forall (λ o, op_in_range o = true) os.
Proof.
  induction os as [|o os IH]; intros b Hwf Hin; simpl.
  - split; [by constructor | by eexists].
  - inversion Hin as [|? ? Ho Hos]; subst.
    rewrite Forall_cons, <- (exec_op_inline_defined o b Hwf Ho).
    destruct (exec_op k ir o b) as [b1|] eqn:Hop; simpl.
    + destruct (exec_op_inline_keeps o b b1 Ho Hop) as (_ & _ & W1 & _).
      rewrite (IH b1 (W1 Hwf) Hos). split; [by split; [eexists|]|].
      by intros [_ ?].
    + split; [by intros [? ?] | by intros [[? ?] _]].
Qed.

End InlineRuns.



(** X7: after a run of the mutators that the header defines inline, HIL
    mode is on exactly when it was on before or the run contains
    [set_hil_mode]: no operation of the header switches it off. *)
Theorem inline_run_hil_mode (k : nat) (ir : reading → bool)
    (os : list op) (b b' : AP_Baro) :
  Forall (λ o, inline_op o = true) os →
  exec k ir os b = Some b' →
  _hil_mode b' = true ↔ _hil_mode b = true ∨ OpSetHilMode ∈ os.
Proof.
  intros Hin Hex.
  by destruct (exec_inline_keeps k ir os b b' Hin Hex) as (_ & _ & _ & M).
Qed.

Lemma inline_run_hil_mode_witness :
  ∃ b', exec 2 bench_in_range bench_ops bench = Some b'
    ∧ (_hil_mode b' = true
       ↔ _hil_mode bench = true ∨ OpSetHilMode ∈ bench_ops).
Proof.
  exists (default bench (exec 2 bench_in_range bench_ops bench)).
  split; [reflexivity|].
  apply (inline_run_hil_mode 2 bench_in_range bench_ops bench).
  - by repeat constructor.
  - reflexivity.
Defined.

(** X8: with the array at its declared size, a run of the mutators that
    the header defines inline has a defined result exactly when every
    [set_type] and [set_precision_multiplier] in it addresses index 0, 1
    or 2; no earlier operation of the run can make a later index valid or
    invalid. *)
Theorem inline_run_defined_iff_in_range (k : nat) (ir : reading → bool)
    (os : list op) (b : AP_Baro) :
  wf b → Forall (λ o, inline_op o = true) os →
  is_Some (exec k ir os b) ↔ Forall (λ o, op_in_range o = true) os.
Proof. intros Hwf Hin. by apply exec_inline_defined. Qed.

Lemma inline_run_defined_iff_in_range_witness :
  is_Some (exec 2 bench_in_range bench_ops bench)
  ∧ ¬ is_Some (exec 2 bench_in_range
                 (bench_ops ++ [OpSetType 3 BARO_TYPE_AIR]) bench).
Proof.
  split.
  - apply (inline_run_defined_iff_in_range 2 bench_in_range bench_ops bench);
      [reflexivity | by repeat constructor | by repeat constructor].
  - intros Hsome.
    apply (inline_run_defined_iff_in_range 2 bench_in_range) in Hsome;
      [|reflexivity | by repeat constructor].
    apply Forall_app in Hsome as [_ Hlast].
    by inversion Hlast.
Defined.

(** ** [set_primary_baro] *)

Lemma int8_t_of_uint8 (z : Z) :
  0 ≤ z < 256 →
  -128 ≤ int8_t z ≤ 127
  ∧ (z ≤ 127 → int8_t z = z)
  ∧ (128 ≤ z → int8_t z = z - 256)
  ∧ uint8_t (int8_t z) = z.
Proof.
  intros Hz. unfold int8_t, uint8_t.
  destruct (Z.le_gt_cases z 127) as [Hlo|Hhi].
  - rewrite (Z.mod_small (z + 128)) by lia.
    replace (z + 128 - 128) with z by lia.
    rewrite Z.mod_small by lia. lia.
  - assert ((z + 128) mod 256 = z - 128) as ->.
    { symmetry. apply (Z.mod_unique _ _ 1); lia. }
    assert ((z - 128 - 128) mod 256 = z) as ->.
    { symmetry. apply (Z.mod_unique _ _ (-1)); lia. }
    lia.
Qed.

(** X9: [set_primary_baro] stores its [uint8_t] argument in the signed
    8-bit parameter [_primary_baro]: values up to 127 are stored as they
    are, values from 128 on are stored as the value minus 256, so negative;
    read back as [uint8_t] the parameter gives the argument again.  The
    primary index [_primary] that the accessors use is not written. *)
Theorem set_primary_baro_narrows (primary : Z) (b : AP_Baro) :
  0 ≤ primary < 256 →
  -128 ≤ _primary_baro (set_primary_baro primary b) ≤ 127
  ∧ (primary ≤ 127 → _primary_baro (set_primary_baro primary b) = primary)
  ∧ (128 ≤ primary →
     _primary_baro (set_primary_baro primary b) = primary - 256)
  ∧ uint8_t (_primary_baro (set_primary_baro primary b)) = primary
  ∧ _primary (set_primary_baro primary b) = _primary b.
Proof.
  intros Hp. unfold set_primary_baro. simpl.
  destruct (int8_t_of_uint8 primary Hp) as (Hr & Hlo & Hhi & Hback).
  by repeat split; try apply Hr.
Qed.

Lemma set_primary_baro_narrows_witness :
  _primary_baro (set_primary_baro 200 bench) = -56
  ∧ uint8_t (_primary_baro (set_primary_baro 200 bench)) = 200
  ∧ _primary_baro (set_primary_baro 2 bench) = 2.
Proof.
  destruct (set_primary_baro_narrows 200 bench ltac:(lia))
    as (_ & _ & Hhi & Hback & _).
  destruct (set_primary_baro_narrows 2 bench ltac:(lia))
    as (_ & Hlo & _).
  split; [apply Hhi; lia|]. split; [exact Hback | apply Hlo; lia].
Defined.

(** ** The primary index and the array *)

Lemma bind_field_is_Some {A : Type} (f : Sensor.t → A)
    (x : option Sensor.t) :
  is_Some (x ≫= λ s, Some (f s)) ↔ is_Some x.
Proof.
  destruct x as [s|]; simpl.
  - split; intros _; [exists s | exists (f s)]; reflexivity.
  - split; intros [y Hy]; discriminate.
Qed.

(** X10: with the array at its declared size, each accessor without an
    instance argument has a defined result exactly when [_primary] is 0, 1
    or 2, since none of them checks it.  The same holds for
    [get_last_update] with an instance argument, whatever the argument: it
    never reads the array at its argument. *)
Theorem primary_accessors_defined_iff (b : AP_Baro) :
  wf b →
  (is_Some (healthy_void b) ↔ 0 ≤ _primary b < BARO_MAX_INSTANCES)
  ∧ (is_Some (get_pressure_void b) ↔ 0 ≤ _primary b < BARO_MAX_INSTANCES)
  ∧ (is_Some (get_temperature_void b)
     ↔ 0 ≤ _primary b < BARO_MAX_INSTANCES)
  ∧ (is_Some (get_altitude_void b) ↔ 0 ≤ _primary b < BARO_MAX_INSTANCES)
  ∧ (is_Some (get_ground_temperature_void b)
     ↔ 0 ≤ _primary b < BARO_MAX_INSTANCES)
  ∧ (is_Some (get_ground_pressure_void b)
     ↔ 0 ≤ _primary b < BARO_MAX_INSTANCES)
  ∧ (is_Some (get_last_update_void b)
     ↔ 0 ≤ _primary b < BARO_MAX_INSTANCES)
  ∧ ∀ i, is_Some (get_last_update b i)
         ↔ 0 ≤ _primary b < BARO_MAX_INSTANCES.
Proof.
  intros Hwf.
  pose proof (sensor_at_is_Some_iff b (_primary b) Hwf) as Hiff.
  assert (∀ (A : Type) (f : Sensor.t → A),
            is_Some (sensor_at b (_primary b) ≫= λ s, Some (f s))
            ↔ 0 ≤ _primary b < BARO_MAX_INSTANCES) as Hfield
    by (intros A f; by rewrite bind_field_is_Some).
  unfold get_last_update_void, get_last_update. unfold_accessors.
  do 7 (split; [apply Hfield|]). intros i. apply Hfield.
Qed.

Lemma primary_accessors_defined_iff_witness :
  is_Some (get_pressure_void bench)
  ∧ is_Some (get_last_update bench 200).
Proof.
  destruct (primary_accessors_defined_iff bench wf_bench)
    as (_ & Hp & _ & _ & _ & _ & _ & Hlast).
  split; [apply Hp | apply Hlast]; by vm_compute.
Defined.
